(** * travel-booking: the booking registry of [src/index.ts]

    A shallow embedding of the script's module-level state ([bookings],
    [nextId]), of the console it prints to, and of the functions
    [bookTicket], [throwInvalidRouteError], [displayBookings],
    [printSummary], [cancelBooking], [getBookingsByStatus] and
    [printBooking], followed by the properties of the registry.

    Modelling conventions.
    - A JavaScript [number] holding an id or a count is an integer of [Z]:
      the counter starts at 1 and grows by one per booking, and a double
      represents every integer below 2^53 exactly, far beyond the length an
      array can reach.
    - A [string] is a [String.string]; [===] on strings is [String.eqb].
    - An optional argument or property ([seatType?], [mealPreference?]) is
      an [option]; [undefined] is [None].
    - Every element of [bookings] is an object created by one call of
      [bookTicket] and pushed once, so the array holds no object twice and
      the in-place assignment [booking.status = ...] on the object returned
      by [find] is the update of the first matching element of the list.
    - A function that throws returns [inl]; the state reached at the throw
      is kept, as a [catch] in the caller would see it. *)

From Stdlib Require Import ZArith List String Ascii Bool Lia Sorted DecimalString.
Import ListNotations.

Local Open Scope Z_scope.
Local Open Scope string_scope.

(** ** Data model *)

Inductive TravelType : Type := Flight | Train | Bus.

Inductive BookingStatus : Type := Booked | Cancelled | Pending.

Record Booking : Type := mkBooking {
  id : Z;
  name : string;
  route : string * string;
  travelType : TravelType;
  status : BookingStatus;
  mealPreference : option string
}.

(** The value [new Error(message)]. *)
Inductive JsError : Type := Error (message : string).

(** The module-level variables and the console. *)
Record World : Type := mkWorld {
  bookings : list Booking;
  nextId : Z;
  console : list string
}.

(** [let bookings = []; let nextId = 1;] and nothing printed yet. *)
Definition initial : World :=
  {| bookings := []; nextId := 1; console := [] |}.

(** ** Strings *)

Definition TravelType_toString (t : TravelType) : string :=
  match t with Flight => "Flight" | Train => "Train" | Bus => "Bus" end.

Definition BookingStatus_toString (s : BookingStatus) : string :=
  match s with
  | Booked => "booked" | Cancelled => "cancelled" | Pending => "pending"
  end.

Definition BookingStatus_eqb (a b : BookingStatus) : bool :=
  match a, b with
  | Booked, Booked | Cancelled, Cancelled | Pending, Pending => true
  | _, _ => false
  end.

(** [`${n}`] for an integer [n]. *)
Definition Number_toString (n : Z) : string :=
  NilZero.string_of_int (Z.to_int n).

(** A string used as a condition: [undefined] and [""] are falsy. *)
Definition truthy (s : option string) : bool :=
  match s with
  | None => false
  | Some s => negb (s =? "")
  end.

Definition newline : string := String (ascii_of_nat 10) EmptyString.

(** The arrow U+2192 of [printBooking], in UTF-8. *)
Definition arrow : string :=
  String (ascii_of_nat 226)
    (String (ascii_of_nat 134) (String (ascii_of_nat 146) EmptyString)).

(** ** Computations over the world that may throw *)

Definition M (A : Type) : Type := World -> (JsError + A) * World.

Definition ret {A : Type} (a : A) : M A := fun w => (inr a, w).

Definition bind {A B : Type} (m : M A) (k : A -> M B) : M B :=
  fun w =>
    match m w with
    | (inl e, w') => (inl e, w')
    | (inr a, w') => k a w'
    end.

Definition throw {A : Type} (e : JsError) : M A := fun w => (inl e, w).

Notation "x <- m ;; k" := (bind m (fun x => k))
  (at level 61, m at next level, right associativity).
Notation "m ;; k" := (bind m (fun _ => k))
  (at level 61, right associativity).

Definition getBookings : M (list Booking) := fun w => (inr (bookings w), w).

Definition setBookings (bs : list Booking) : M unit :=
  fun w => (inr tt, {| bookings := bs; nextId := nextId w; console := console w |}).


(** [nextId++]: the old value is the result.  The increment of a double is
    the exact one for the integers from [- maxSafeInteger] to
    [maxSafeInteger], which are all that the counter takes from 1 on in a
    registry that an array can hold; a property stated for every world
    speaks of the counter after the increment only within that range. *)
Definition postIncrNextId : M Z :=
  fun w => (inr (nextId w),
            {| bookings := bookings w; nextId := nextId w + 1; console := console w |}).

(** [bookings.push(b)]. *)
Definition push (b : Booking) : M unit :=
  bs <- getBookings ;; setBookings (bs ++ [b]).

(** [console.log(line)] and [console.error(line)]. *)
Definition console_log (line : string) : M unit :=
  fun w => (inr tt,
            {| bookings := bookings w; nextId := nextId w;
               console := console w ++ [line] |}).

(** [xs.forEach(f)]. *)
Fixpoint forEach {A : Type} (xs : list A) (f : A -> M unit) : M unit :=
  match xs with
  | [] => ret tt
  | x :: xs' => f x ;; forEach xs' f
  end.

(** ** The functions of the script *)

(** [throwInvalidRouteError(route): never]. *)
Definition invalidRouteMessage (route : string * string) : string :=
  "Invalid route: " ++ fst route ++ " and " ++ snd route ++ " cannot be the same".

Definition throwInvalidRouteError {A : Type} (route : string * string) : M A :=
  throw (Error (invalidRouteMessage route)).

Definition setMealPreference (b : Booking) (m : option string) : Booking :=
  {| id := id b; name := name b; route := route b; travelType := travelType b;
     status := status b; mealPreference := m |}.

(** [bookTicket(name, route, seatType?)]. *)
Definition bookTicket (name : string) (route : string * string)
    (seatType : option string) : M Booking :=
  (if fst route =? snd route then throwInvalidRouteError route else ret tt) ;;
  newId <- postIncrNextId ;;
  let newBooking :=
    {| id := newId; name := name; route := route; travelType := Flight;
       status := Booked;
       mealPreference := if truthy seatType then None else Some "Vegetarian" |} in
  let newBooking :=
    if truthy seatType then setMealPreference newBooking seatType else newBooking in
  push newBooking ;;
  console_log ("Booking created: " ++ name ++ " - " ++ fst route ++ " to " ++ snd route) ;;
  ret newBooking.

(** [printBooking(booking)]. *)
Definition printBooking (booking : Booking) : M unit :=
  console_log
    ("ID: " ++ Number_toString (id booking) ++ ", Name: " ++ name booking ++ ", "
     ++ "Route: " ++ fst (route booking) ++ " " ++ arrow ++ " " ++ snd (route booking) ++ ", "
     ++ "Type: " ++ TravelType_toString (travelType booking)
     ++ ", Status: " ++ BookingStatus_toString (status booking) ++ ", "
     ++ "Meal: " ++ (if truthy (mealPreference booking)
                     then match mealPreference booking with
                          | Some m => m
                          | None => ""
                          end
                     else "Not specified")).

(** [bookings.find(b => b.id === id)]. *)
Definition findById (i : Z) (bs : list Booking) : option Booking :=
  find (fun b => id b =? i)%Z bs.

(** [displayBookings(...bookingIds)]. *)
Definition displayBookings (bookingIds : list Z) : M unit :=
  match bookingIds with
  | [] =>
      console_log "Displaying all bookings:" ;;
      bs <- getBookings ;;
      forEach bs printBooking
  | _ =>
      console_log ("Displaying bookings with IDs: "
                   ++ concat ", " (map Number_toString bookingIds)) ;;
      forEach bookingIds (fun i =>
        bs <- getBookings ;;
        match findById i bs with
        | Some booking => printBooking booking
        | None => console_log ("Booking with ID " ++ Number_toString i ++ " not found")
        end)
  end.

(** The object [statusCounts]. *)
Record StatusCounts : Type := mkStatusCounts {
  booked : Z;
  cancelled : Z;
  pending : Z
}.

(** [statusCounts[s]++]. *)
Definition incrStatus (c : StatusCounts) (s : BookingStatus) : StatusCounts :=
  match s with
  | Booked => {| booked := booked c + 1; cancelled := cancelled c; pending := pending c |}
  | Cancelled => {| booked := booked c; cancelled := cancelled c + 1; pending := pending c |}
  | Pending => {| booked := booked c; cancelled := cancelled c; pending := pending c + 1 |}
  end.

(** The loop of [printSummary] over the registry. *)
Definition statusCounts (bs : list Booking) : StatusCounts :=
  fold_left (fun c booking => incrStatus c (status booking)) bs
    {| booked := 0; cancelled := 0; pending := 0 |}.

(** [printSummary()]. *)
Definition printSummary : M unit :=
  console_log (newline ++ "=== Booking Summary ===") ;;
  bs <- getBookings ;;
  console_log ("Total bookings: " ++ Number_toString (Z.of_nat (List.length bs))) ;;
  let counts := statusCounts bs in
  console_log ("Booked: " ++ Number_toString (booked counts)
               ++ ", Cancelled: " ++ Number_toString (cancelled counts)
               ++ ", Pending: " ++ Number_toString (pending counts)).

(** The argument of [cancelBooking]: [number | Booking].  A number that is
    no integer is the id of no booking, as is an integer that is absent. *)
Inductive BookingRef : Type :=
| RefNumber (n : Z)
| RefBooking (b : Booking).

(** [typeof bookingRef === 'number' ? bookingRef : bookingRef.id]. *)
Definition refId (bookingRef : BookingRef) : Z :=
  match bookingRef with
  | RefNumber n => n
  | RefBooking b => id b
  end.

Definition setStatus (b : Booking) (s : BookingStatus) : Booking :=
  {| id := id b; name := name b; route := route b; travelType := travelType b;
     status := s; mealPreference := mealPreference b |}.

(** The assignment [booking.status = s] on the object that
    [bookings.find(b => b.id === i)] returns. *)
Fixpoint assignStatusOfFound (i : Z) (s : BookingStatus) (bs : list Booking)
    : list Booking :=
  match bs with
  | [] => []
  | b :: bs' =>
      if (id b =? i)%Z then setStatus b s :: bs'
      else b :: assignStatusOfFound i s bs'
  end.

(** [cancelBooking(bookingRef)]. *)
Definition cancelBooking (bookingRef : BookingRef) : M unit :=
  let i := refId bookingRef in
  bs <- getBookings ;;
  match findById i bs with
  | Some _ =>
      setBookings (assignStatusOfFound i Cancelled bs) ;;
      console_log ("Booking " ++ Number_toString i ++ " cancelled")
  | None =>
      console_log ("Booking " ++ Number_toString i ++ " not found")
  end.

(** [getBookingsByStatus(status, callback)]. *)
Definition getBookingsByStatus (s : BookingStatus)
    (callback : list Booking -> M unit) : M unit :=
  bs <- getBookings ;;
  let result := filter (fun booking => BookingStatus_eqb (status booking) s) bs in
  callback result.

(** ** The registry specified: queries and summaries returned directly *)

Definition BookingStatus_eq_dec (a b : BookingStatus) : {a = b} + {a <> b}.
Proof. decide equality. Defined.

(** QueryByStatus as a direct return: the bookings of the registry whose
    status is [s], in insertion order. *)
Fixpoint queryByStatus (s : BookingStatus) (registry : list Booking) : list Booking :=
  match registry with
  | [] => []
  | b :: rest =>
      if BookingStatus_eq_dec (status b) s
      then b :: queryByStatus s rest
      else queryByStatus s rest
  end.

(** ** Sequences of operations on the registry *)

(** One call of a public operation by the driver.  The consumer of
    [QueryByStatus] prints what it is given, as the one of the script does. *)
Inductive Op : Type :=
| Create (name : string) (route : string * string) (seatType : option string)
| Cancel (bookingRef : BookingRef)
| Display (bookingIds : list Z)
| Summarize
| QueryByStatus (s : BookingStatus) (render : list Booking -> list string).

(** What the driver sees of a call, inside a [try]/[catch]. *)
Inductive Outcome : Type :=
| Returned (b : Booking)
| Threw (e : JsError)
| Completed.

Definition outcomeOfBooking (r : JsError + Booking) : Outcome :=
  match r with inl e => Threw e | inr b => Returned b end.

Definition outcomeOfUnit (r : JsError + unit) : Outcome :=
  match r with inl e => Threw e | inr _ => Completed end.

Definition step (o : Op) (w : World) : Outcome * World :=
  match o with
  | Create name route seatType =>
      let (r, w') := bookTicket name route seatType w in (outcomeOfBooking r, w')
  | Cancel bookingRef =>
      let (r, w') := cancelBooking bookingRef w in (outcomeOfUnit r, w')
  | Display bookingIds =>
      let (r, w') := displayBookings bookingIds w in (outcomeOfUnit r, w')
  | Summarize =>
      let (r, w') := printSummary w in (outcomeOfUnit r, w')
  | QueryByStatus s render =>
      let (r, w') :=
        getBookingsByStatus s (fun result => forEach (render result) console_log) w in
      (outcomeOfUnit r, w')
  end.

Fixpoint run (ops : list Op) (w : World) : list Outcome * World :=
  match ops with
  | [] => ([], w)
  | o :: ops' =>
      let (r, w1) := step o w in
      let (rs, w2) := run ops' w1 in
      (r :: rs, w2)
  end.

Definition outcomes (ops : list Op) (w : World) : list Outcome := fst (run ops w).
Definition exec (ops : list Op) (w : World) : World := snd (run ops w).

(** The ids of the bookings that the calls returned, in call order. *)
Fixpoint createdIds (rs : list Outcome) : list Z :=
  match rs with
  | [] => []
  | Returned b :: rs' => id b :: createdIds rs'
  | _ :: rs' => createdIds rs'
  end.

(** The number of [Create] calls of [ops] whose route has two different ends. *)
Fixpoint validCreates (ops : list Op) : nat :=
  match ops with
  | [] => 0
  | Create _ route _ :: ops' =>
      if fst route =? snd route then validCreates ops' else S (validCreates ops')
  | _ :: ops' => validCreates ops'
  end.

(** [k; k+1; ...], [n] numbers. *)
Fixpoint countFrom (k : Z) (n : nat) : list Z :=
  match n with
  | O => []
  | S n' => k :: countFrom (k + 1) n'
  end.

(** ** Notions used by the properties *)

(** The meal preference that [bookTicket] stores for a seat type. *)
Definition storedMealPreference (seatType : option string) : option string :=
  match seatType with
  | None => Some "Vegetarian"
  | Some s => if s =? "" then Some "Vegetarian" else Some s
  end.

(** [m] returns normally and leaves [bookings] and [nextId] as they are. *)
Definition printsOnly (m : M unit) : Prop :=
  forall w, fst (m w) = inr tt
            /\ bookings (snd (m w)) = bookings w
            /\ nextId (snd (m w)) = nextId w.

(** What a step does to the registry: nothing, an append, or the
    cancellation of the booking found. *)
Inductive StepEffect (o : Op) (w : World) : Outcome * World -> Prop :=
| effect_unchanged r w' :
    bookings w' = bookings w -> nextId w' = nextId w ->
    (forall b, r <> Returned b) ->
    (forall name route seatType,
        o = Create name route seatType -> fst route = snd route) ->
    StepEffect o w (r, w')
| effect_created (b : Booking) w' :
    bookings w' = (bookings w ++ [b])%list -> nextId w' = nextId w + 1 ->
    id b = nextId w -> status b = Booked -> travelType b = Flight ->
    (exists name route seatType,
        o = Create name route seatType /\ fst route <> snd route) ->
    StepEffect o w (Returned b, w')
| effect_cancelled bookingRef w' :
    o = Cancel bookingRef ->
    bookings w' = assignStatusOfFound (refId bookingRef) Cancelled (bookings w) ->
    nextId w' = nextId w ->
    StepEffect o w (Completed, w').

(** The registry numbers its bookings by position. *)
Definition wellNumbered (w : World) : Prop :=
  map id (bookings w) = countFrom 1 (List.length (bookings w))
  /\ nextId w = Z.of_nat (List.length (bookings w)) + 1.

(** A booking as [bookTicket] and [cancelBooking] leave it. *)
Definition inService (b : Booking) : Prop :=
  (status b = Booked \/ status b = Cancelled) /\ travelType b = Flight.

(** What the operation [o] may do to a booking of the registry: nothing, or,
    when it cancels that booking, move it from booked to cancelled. *)
Definition statusTransition (o : Op) (before after : Booking) : Prop :=
  after = before
  \/ (status before = Booked
      /\ after = setStatus before Cancelled
      /\ exists bookingRef, o = Cancel bookingRef /\ refId bookingRef = id before).

(** The scenario of the script: three bookings, two listings, a summary, a
    cancellation, a query and a summary. *)
Definition script : list Op :=
  [ Create "John Doe" ("New York", "London") None;
    Create "Jane Smith" ("Paris", "Berlin") (Some "Business");
    Create "Bob Johnson" ("Tokyo", "Sydney") None;
    Display [1; 2]%Z;
    Display [];
    Summarize;
    Cancel (RefNumber 1);
    QueryByStatus Booked (fun bs => (newline ++ "Booked bookings (via callback):") :: []);
    Summarize ].

(** The example of the specification: two bookings, a refused third one, a
    cancellation. *)
Definition twoBookingsOneCancelled : World :=
  exec [ Create "John Doe" ("New York", "London") None;
         Create "Jane Smith" ("Paris", "Berlin") (Some "Business");
         Cancel (RefNumber 1) ] initial.

(** ** The driver of the script *)

(** [try { body } catch (error) { handler(error) }]. *)
Definition tryCatch {A : Type} (body : M A) (handler : JsError -> M A) : M A :=
  fun w =>
    match body w with
    | (inl error, w') => handler error w'
    | (inr a, w') => (inr a, w')
    end.

(** [error.message]. *)
Definition errorMessage (error : JsError) : string :=
  match error with Error message => message end.

(** The statements of the script below the functions.  Whatever is thrown in
    this model is an [Error], so the handler takes its first branch. *)
Definition main : M unit :=
  console_log "=== Travel Booking System ===" ;;
  tryCatch
    (booking1 <- bookTicket "John Doe" ("New York", "London") None ;;
     booking2 <- bookTicket "Jane Smith" ("Paris", "Berlin") (Some "Business") ;;
     booking3 <- bookTicket "Bob Johnson" ("Tokyo", "Sydney") None ;;
     ret tt)
    (fun error => console_log (errorMessage error)) ;;
  displayBookings [1; 2]%Z ;;
  displayBookings [] ;;
  printSummary ;;
  cancelBooking (RefNumber 1) ;;
  getBookingsByStatus Booked (fun bookedBookings =>
    console_log (newline ++ "Booked bookings (via callback):") ;;
    forEach bookedBookings printBooking) ;;
  printSummary.

(** ** What the listings print *)

(** The line that [printBooking] prints for a booking. *)
Definition bookingLine (booking : Booking) : string :=
  "ID: " ++ Number_toString (id booking) ++ ", Name: " ++ name booking ++ ", "
  ++ "Route: " ++ fst (route booking) ++ " " ++ arrow ++ " " ++ snd (route booking) ++ ", "
  ++ "Type: " ++ TravelType_toString (travelType booking)
  ++ ", Status: " ++ BookingStatus_toString (status booking) ++ ", "
  ++ "Meal: " ++ (if truthy (mealPreference booking)
                  then match mealPreference booking with
                       | Some m => m
                       | None => ""
                       end
                  else "Not specified").

(** The line that [displayBookings] prints for one requested id. *)
Definition requestedLine (bs : list Booking) (i : Z) : string :=
  match findById i bs with
  | Some booking => bookingLine booking
  | None => "Booking with ID " ++ Number_toString i ++ " not found"
  end.

(** [statusCounts[s]], read. *)
Definition countOf (c : StatusCounts) (s : BookingStatus) : Z :=
  match s with
  | Booked => booked c
  | Cancelled => cancelled c
  | Pending => pending c
  end.

(** The array that [getBookingsByStatus] hands to its callback. *)
Definition withStatus (s : BookingStatus) (bs : list Booking) : list Booking :=
  filter (fun booking => BookingStatus_eqb (status booking) s) bs.

(** A booking and what later operations may have made of it: the same
    booking but for its status, and still cancelled if it was. *)
Definition laterVersion (before after : Booking) : Prop :=
  after = setStatus before (status after)
  /\ (status before = Cancelled -> status after = Cancelled).

(** ** Equations of the operations *)

Section Equations.

Variable w : World.

Lemma bookTicket_same_ends name route seatType :
  fst route = snd route ->
  bookTicket name route seatType w = (inl (Error (invalidRouteMessage route)), w).
Proof.
  intros Heq. unfold bookTicket, bind.
  apply String.eqb_eq in Heq. rewrite Heq. reflexivity.
Qed.

Lemma bookTicket_different_ends name route seatType :
  fst route <> snd route ->
  let newBooking :=
    {| id := nextId w; name := name; route := route; travelType := Flight;
       status := Booked;
       mealPreference := if truthy seatType then seatType else Some "Vegetarian" |} in
  bookTicket name route seatType w
  = (inr newBooking,
     {| bookings := bookings w ++ [newBooking];
        nextId := nextId w + 1;
        console := console w ++ ["Booking created: " ++ name ++ " - "
                                 ++ fst route ++ " to " ++ snd route] |}).
Proof.
  intros Hne. apply String.eqb_neq in Hne.
  unfold bookTicket, bind. rewrite Hne. cbn.
  destruct (truthy seatType); reflexivity.
Qed.

Lemma cancelBooking_found bookingRef b :
  findById (refId bookingRef) (bookings w) = Some b ->
  cancelBooking bookingRef w
  = (inr tt,
     {| bookings := assignStatusOfFound (refId bookingRef) Cancelled (bookings w);
        nextId := nextId w;
        console := console w
                   ++ ["Booking " ++ Number_toString (refId bookingRef) ++ " cancelled"] |}).
Proof.
  intros Hfind. unfold cancelBooking, bind, getBookings. cbn.
  rewrite Hfind. reflexivity.
Qed.

Lemma cancelBooking_not_found bookingRef :
  findById (refId bookingRef) (bookings w) = None ->
  cancelBooking bookingRef w
  = (inr tt,
     {| bookings := bookings w;
        nextId := nextId w;
        console := console w
                   ++ ["Booking " ++ Number_toString (refId bookingRef) ++ " not found"] |}).
Proof.
  intros Hfind. unfold cancelBooking, bind, getBookings. cbn.
  rewrite Hfind. reflexivity.
Qed.

End Equations.

(** ** The script, run *)

Example script_ids : createdIds (outcomes script initial) = [1; 2; 3]%Z.
Proof. reflexivity. Qed.

Example script_summary :
  statusCounts (bookings (exec script initial))
  = {| booked := 2; cancelled := 1; pending := 0 |}.
Proof. reflexivity. Qed.

(** ** Operations that only print *)

Lemma printsOnly_console_log line : printsOnly (console_log line).
Proof. intros w. cbn. auto. Qed.

Lemma printsOnly_seq (m k : M unit) :
  printsOnly m -> printsOnly k -> printsOnly (m ;; k).
Proof.
  intros Hm Hk w. unfold bind.
  destruct (Hm w) as (Hr & Hb & Hn).
  destruct (m w) as [[e | []] w1]; cbn in *; [discriminate |].
  destruct (Hk w1) as (Hr' & Hb' & Hn').
  repeat split; congruence.
Qed.

Lemma printsOnly_forEach {A : Type} (xs : list A) (f : A -> M unit) :
  (forall x, printsOnly (f x)) -> printsOnly (forEach xs f).
Proof.
  intros Hf. induction xs as [| x xs IH]; cbn.
  - intros w. cbn. auto.
  - apply printsOnly_seq; auto.
Qed.

Lemma printsOnly_with_bookings (k : list Booking -> M unit) :
  (forall bs, printsOnly (k bs)) -> printsOnly (bs <- getBookings ;; k bs).
Proof. intros Hk w. unfold bind, getBookings. apply Hk. Qed.

Lemma printsOnly_printBooking b : printsOnly (printBooking b).
Proof. apply printsOnly_console_log. Qed.

Lemma printsOnly_displayBookings bookingIds : printsOnly (displayBookings bookingIds).
Proof.
  unfold displayBookings. destruct bookingIds as [| i rest].
  - apply printsOnly_seq; [apply printsOnly_console_log |].
    apply printsOnly_with_bookings. intros bs.
    apply printsOnly_forEach, printsOnly_printBooking.
  - apply printsOnly_seq; [apply printsOnly_console_log |].
    apply printsOnly_forEach. intros j.
    apply printsOnly_with_bookings. intros bs.
    destruct (findById j bs);
      [apply printsOnly_printBooking | apply printsOnly_console_log].
Qed.

Lemma printsOnly_printSummary : printsOnly printSummary.
Proof.
  unfold printSummary.
  apply printsOnly_seq; [apply printsOnly_console_log |].
  apply printsOnly_with_bookings. intros bs.
  apply printsOnly_seq; apply printsOnly_console_log.
Qed.

Lemma printsOnly_getBookingsByStatus s (callback : list Booking -> M unit) :
  (forall result, printsOnly (callback result)) ->
  printsOnly (getBookingsByStatus s callback).
Proof.
  intros Hcb. unfold getBookingsByStatus.
  apply printsOnly_with_bookings. intros bs. apply Hcb.
Qed.

(** ** One step of the driver *)

Lemma step_printsOnly o w (m : M unit) :
  (forall name route seatType, o <> Create name route seatType) ->
  printsOnly m ->
  StepEffect o w (let (r, w') := m w in (outcomeOfUnit r, w')).
Proof.
  intros Hop' Hm.
  assert (Hop : forall name route seatType,
             o = Create name route seatType -> fst route = snd route)
    by (intros nm rt seat Ho; destruct (Hop' nm rt seat Ho)).
  destruct (Hm w) as (Hr & Hb & Hn).
  destruct (m w) as [r w']; cbn in *. subst r.
  apply effect_unchanged; [exact Hb | exact Hn | discriminate | exact Hop].
Qed.

Lemma step_effect o w : StepEffect o w (step o w).
Proof.
  destruct o as [nm rt seat | ref | ids | | s render]; cbn [step].
  - destruct (String.eqb_spec (fst rt) (snd rt)) as [Heq | Hne].
    + rewrite (bookTicket_same_ends w nm rt seat Heq). cbn.
      apply effect_unchanged; [reflexivity | reflexivity | discriminate |].
      intros ? ? ? Ho. injection Ho as <- <- <-. exact Heq.
    + rewrite (bookTicket_different_ends w nm rt seat Hne). cbn.
      apply effect_created; cbn; auto. eauto.
  - destruct (findById (refId ref) (bookings w)) as [b |] eqn:Hfind.
    + rewrite (cancelBooking_found w ref b Hfind). cbn.
      eapply effect_cancelled; cbn; eauto.
    + rewrite (cancelBooking_not_found w ref Hfind). cbn.
      apply effect_unchanged; [reflexivity | reflexivity | discriminate | discriminate].
  - apply step_printsOnly; [discriminate | apply printsOnly_displayBookings].
  - apply step_printsOnly; [discriminate | apply printsOnly_printSummary].
  - apply step_printsOnly; [discriminate |].
    apply printsOnly_getBookingsByStatus.
    intros result. apply printsOnly_forEach, printsOnly_console_log.
Qed.

Lemma run_cons o ops w :
  run (o :: ops) w
  = (fst (step o w) :: outcomes ops (snd (step o w)), exec ops (snd (step o w))).
Proof.
  unfold outcomes, exec. cbn [run].
  destruct (step o w) as [r w1]. cbn [fst snd].
  destruct (run ops w1) as [rs w2]. reflexivity.
Qed.

Lemma exec_cons o ops w : exec (o :: ops) w = exec ops (snd (step o w)).
Proof. unfold exec at 1. rewrite run_cons. reflexivity. Qed.

Lemma outcomes_cons o ops w :
  outcomes (o :: ops) w = fst (step o w) :: outcomes ops (snd (step o w)).
Proof. unfold outcomes at 1. rewrite run_cons. reflexivity. Qed.

(** A property of the initial world that every step keeps holds after
    every sequence of operations. *)
Lemma exec_invariant (P : World -> Prop) :
  (forall o w, P w -> P (snd (step o w))) ->
  forall ops w, P w -> P (exec ops w).
Proof.
  intros Hstep ops. induction ops as [| o ops IH]; intros w Hw.
  - exact Hw.
  - rewrite exec_cons. apply IH, Hstep, Hw.
Qed.

(** ** Lists of consecutive numbers *)

Lemma countFrom_snoc k n :
  countFrom k (S n) = (countFrom k n ++ [k + Z.of_nat n])%list.
Proof.
  revert k. induction n as [| n IH]; intros k.
  - cbn. f_equal. lia.
  - change (countFrom k (S (S n))) with (k :: countFrom (k + 1) (S n)).
    rewrite IH. cbn [countFrom app]. do 3 f_equal. lia.
Qed.

Lemma countFrom_In k n x : In x (countFrom k n) -> k <= x < k + Z.of_nat n.
Proof.
  revert k. induction n as [| n IH]; intros k; cbn [countFrom In].
  - intros [].
  - intros [<- | Hin]; [lia |]. apply IH in Hin. lia.
Qed.

Lemma countFrom_sorted k n : StronglySorted Z.lt (countFrom k n).
Proof.
  revert k. induction n as [| n IH]; intros k; cbn [countFrom]; constructor.
  - apply IH.
  - apply Forall_forall. intros x Hin. apply countFrom_In in Hin. lia.
Qed.

Lemma countFrom_NoDup k n : NoDup (countFrom k n).
Proof.
  revert k. induction n as [| n IH]; intros k; cbn [countFrom]; constructor.
  - intros Hin. apply countFrom_In in Hin. lia.
  - apply IH.
Qed.

Lemma countFrom_nth_error k n i :
  nth_error (countFrom k n) i
  = if (i <? n)%nat then Some (k + Z.of_nat i) else None.
Proof.
  revert k i. induction n as [| n IH]; intros k i.
  - destruct i; reflexivity.
  - destruct i as [| i]; cbn [countFrom nth_error].
    + cbn. f_equal. lia.
    + rewrite IH. change (S i <? S n)%nat with (i <? n)%nat.
      destruct (i <? n)%nat; [f_equal; lia | reflexivity].
Qed.

(** ** The assignment of a status keeps everything else *)

Lemma assignStatusOfFound_length i s bs :
  List.length (assignStatusOfFound i s bs) = List.length bs.
Proof.
  induction bs as [| b bs IH]; cbn; [reflexivity |].
  destruct (id b =? i)%Z; cbn; [| rewrite IH]; reflexivity.
Qed.

Lemma assignStatusOfFound_ids i s bs :
  map id (assignStatusOfFound i s bs) = map id bs.
Proof.
  induction bs as [| b bs IH]; cbn; [reflexivity |].
  destruct (id b =? i)%Z; cbn; [| rewrite IH]; reflexivity.
Qed.

Lemma findById_assigned i s bs b :
  findById i bs = Some b ->
  findById i (assignStatusOfFound i s bs) = Some (setStatus b s).
Proof.
  unfold findById. induction bs as [| b0 bs IH]; cbn; [discriminate |].
  destruct (id b0 =? i)%Z eqn:Hid.
  - intros [= <-]. cbn. rewrite Hid. reflexivity.
  - intros Hfind. cbn. rewrite Hid. apply IH, Hfind.
Qed.

Lemma findById_assigned_other i j s bs :
  j <> i -> findById j (assignStatusOfFound i s bs) = findById j bs.
Proof.
  intros Hne. unfold findById. induction bs as [| b bs IH]; cbn; [reflexivity |].
  destruct (id b =? i)%Z eqn:Hid; cbn.
  - apply Z.eqb_eq in Hid.
    destruct (Z.eqb_spec (id b) j) as [Heq | _]; [congruence | reflexivity].
  - rewrite IH. reflexivity.
Qed.

Lemma assignStatusOfFound_idempotent i s bs :
  assignStatusOfFound i s (assignStatusOfFound i s bs) = assignStatusOfFound i s bs.
Proof.
  induction bs as [| b bs IH]; cbn; [reflexivity |].
  destruct (id b =? i)%Z eqn:Hid; cbn; rewrite Hid; [reflexivity |].
  rewrite IH. reflexivity.
Qed.

Lemma assignStatusOfFound_Forall (P : Booking -> Prop) i s bs :
  (forall b, P b -> P (setStatus b s)) ->
  Forall P bs -> Forall P (assignStatusOfFound i s bs).
Proof.
  intros Hset. induction 1 as [| b bs Hb Hbs IH]; cbn; [constructor |].
  destruct (id b =? i)%Z; constructor; auto.
Qed.

(** ** Creation *)

(** C1. [bookTicket] throws the invalid-route error exactly when the two
    ends of the route are the same string, and exactly when they differ it
    returns a new booking, whatever the name, the seat type and the registry:
    the booking has the current value of the id counter as its id, the name
    and the route given, the type flight and the status booked, and the
    registry afterwards is the registry before with this booking appended. *)
Theorem bookTicket_throws_iff_same_ends name0 route0 seatType w :
  let r := fst (bookTicket name0 route0 seatType w) in
  let w' := snd (bookTicket name0 route0 seatType w) in
  (r = inl (Error (invalidRouteMessage route0)) <-> fst route0 = snd route0)
  /\ ((exists e, r = inl e) <-> fst route0 = snd route0)
  /\ ((exists b,
         r = inr b
         /\ id b = nextId w
         /\ name b = name0
         /\ route b = route0
         /\ travelType b = Flight
         /\ status b = Booked
         /\ bookings w' = (bookings w ++ [b])%list)
      <-> fst route0 <> snd route0).
Proof.
  cbn zeta.
  destruct (String.eqb_spec (fst route0) (snd route0)) as [Heq | Hne].
  - rewrite (bookTicket_same_ends w name0 route0 seatType Heq). cbn [fst snd].
    repeat split; auto.
    + intros _. eexists. reflexivity.
    + intros (b & Hb & _). discriminate.
    + intros Hne. destruct (Hne Heq).
  - pose proof (bookTicket_different_ends w name0 route0 seatType Hne) as Hbook.
    cbn zeta in Hbook. rewrite Hbook. cbn [fst snd bookings].
    repeat split; auto.
    + discriminate.
    + intros Heq. destruct (Hne Heq).
    + intros [e He]. discriminate.
    + intros Heq. destruct (Hne Heq).
    + intros _. eexists. repeat split.
Qed.

(** C2, as the code has it.  A booking created with no seat type, or with
    the empty string, has the meal preference "Vegetarian"; one created with
    a non-empty string has exactly that string. *)
Theorem bookTicket_mealPreference name route seatType w b :
  fst (bookTicket name route seatType w) = inr b ->
  mealPreference b = storedMealPreference seatType.
Proof.
  destruct (String.eqb_spec (fst route) (snd route)) as [Heq | Hne].
  - rewrite (bookTicket_same_ends w name route seatType Heq). discriminate.
  - pose proof (bookTicket_different_ends w name route seatType Hne) as Hbook.
    cbn zeta in Hbook. rewrite Hbook. cbn [fst]. intros [= <-]. cbn.
    destruct seatType as [s |]; cbn; [| reflexivity].
    destruct (s =? ""); reflexivity.
Qed.

Lemma bookTicket_mealPreference_witness :
  fst (bookTicket "Jane Smith" ("Paris", "Berlin") (Some "Business") initial)
  = inr {| id := 1; name := "Jane Smith"; route := ("Paris", "Berlin");
           travelType := Flight; status := Booked;
           mealPreference := Some "Business" |}
  /\ Some "Business" = storedMealPreference (Some "Business").
Proof.
  split; [reflexivity |].
  exact (bookTicket_mealPreference "Jane Smith" ("Paris", "Berlin")
           (Some "Business") initial _ eq_refl).
Defined.

(** C2, as stated, fails for the empty string: it is falsy, so the default
    is stored in its place. *)
Lemma bookTicket_empty_seatType_not_kept :
  exists b,
    fst (bookTicket "Ann" ("Paris", "Rome") (Some "") initial) = inr b
    /\ mealPreference b = Some "Vegetarian"
    /\ mealPreference b <> Some "".
Proof.
  eexists. split; [reflexivity |]. cbn. split; [reflexivity | discriminate].
Qed.

(** C6. A call of [bookTicket] that throws leaves the registry, the id
    counter and the console as they were, so that a summary printed
    afterwards is the one that would have been printed before. *)
Theorem bookTicket_failure_is_atomic name route seatType w e :
  fst (bookTicket name route seatType w) = inl e ->
  let w' := snd (bookTicket name route seatType w) in
  bookings w' = bookings w
  /\ nextId w' = nextId w
  /\ w' = w
  /\ statusCounts (bookings w') = statusCounts (bookings w)
  /\ printSummary w' = printSummary w.
Proof.
  destruct (String.eqb_spec (fst route) (snd route)) as [Heq | Hne].
  - rewrite (bookTicket_same_ends w name route seatType Heq). cbn.
    intros _. repeat split; reflexivity.
  - pose proof (bookTicket_different_ends w name route seatType Hne) as Hbook.
    cbn zeta in Hbook. rewrite Hbook. discriminate.
Qed.

Lemma bookTicket_failure_is_atomic_witness :
  fst (bookTicket "X" ("Tokyo", "Tokyo") None twoBookingsOneCancelled)
  = inl (Error "Invalid route: Tokyo and Tokyo cannot be the same")
  /\ snd (bookTicket "X" ("Tokyo", "Tokyo") None twoBookingsOneCancelled)
     = twoBookingsOneCancelled
  /\ statusCounts
       (bookings (snd (bookTicket "X" ("Tokyo", "Tokyo") None twoBookingsOneCancelled)))
     = {| booked := 1; cancelled := 1; pending := 0 |}.
Proof.
  split; [reflexivity |].
  destruct (bookTicket_failure_is_atomic "X" ("Tokyo", "Tokyo") None
              twoBookingsOneCancelled _ eq_refl) as (_ & _ & Hw & Hc & _).
  split; [exact Hw |]. rewrite Hc. reflexivity.
Defined.

(** ** Cancellation *)

(** C4. When the registry holds a booking with the id that the argument
    names, [cancelBooking] returns normally, the booking found under that id
    is afterwards the same booking with status cancelled, no other id and no
    other field is touched, and a second call returns normally too and
    leaves the registry ([bookings] and [nextId]) as the first call left it. *)
Theorem cancelBooking_existing_idempotent w bookingRef b :
  findById (refId bookingRef) (bookings w) = Some b ->
  let once := cancelBooking bookingRef w in
  let twice := cancelBooking bookingRef (snd once) in
  fst once = inr tt
  /\ findById (refId bookingRef) (bookings (snd once)) = Some (setStatus b Cancelled)
  /\ (forall j, j <> refId bookingRef ->
        findById j (bookings (snd once)) = findById j (bookings w))
  /\ map id (bookings (snd once)) = map id (bookings w)
  /\ nextId (snd once) = nextId w
  /\ fst twice = inr tt
  /\ bookings (snd twice) = bookings (snd once)
  /\ nextId (snd twice) = nextId (snd once).
Proof.
  intros Hfind. cbn zeta.
  rewrite (cancelBooking_found w bookingRef b Hfind). cbn [fst snd].
  pose proof (findById_assigned _ Cancelled _ _ Hfind) as Hfound.
  match goal with
  | |- context [cancelBooking bookingRef ?w1] =>
      rewrite (cancelBooking_found w1 bookingRef (setStatus b Cancelled) Hfound)
  end.
  cbn [fst snd bookings nextId].
  repeat split.
  - exact Hfound.
  - intros j Hj. apply findById_assigned_other, Hj.
  - apply assignStatusOfFound_ids.
  - apply assignStatusOfFound_idempotent.
Qed.

Lemma cancelBooking_existing_idempotent_witness :
  let w := exec [ Create "John Doe" ("New York", "London") None;
                  Create "Jane Smith" ("Paris", "Berlin") (Some "Business") ] initial in
  map status (bookings w) = [Booked; Booked]
  /\ map status (bookings (snd (cancelBooking (RefNumber 1) w))) = [Cancelled; Booked]
  /\ bookings (snd (cancelBooking (RefNumber 1) (snd (cancelBooking (RefNumber 1) w))))
     = bookings (snd (cancelBooking (RefNumber 1) w)).
Proof.
  cbn zeta. split; [reflexivity |]. split; [reflexivity |].
  exact (proj1 (proj2 (proj2 (proj2 (proj2 (proj2 (proj2
           (cancelBooking_existing_idempotent
              (exec [ Create "John Doe" ("New York", "London") None;
                      Create "Jane Smith" ("Paris", "Berlin") (Some "Business") ]
                 initial)
              (RefNumber 1) _ eq_refl)))))))).
Defined.

(** C5. When no booking of the registry has the id that the argument names
    (a number, or the id of a booking object), [cancelBooking] returns
    normally, prints the not-found line and changes nothing else: the list of
    bookings, with every field of every booking, and the id counter are the
    same. *)
Theorem cancelBooking_missing_changes_nothing w bookingRef :
  findById (refId bookingRef) (bookings w) = None ->
  let w' := snd (cancelBooking bookingRef w) in
  fst (cancelBooking bookingRef w) = inr tt
  /\ bookings w' = bookings w
  /\ nextId w' = nextId w
  /\ console w'
     = (console w
        ++ [("Booking " ++ Number_toString (refId bookingRef) ++ " not found")%string])%list.
Proof.
  intros Hfind. cbn zeta.
  rewrite (cancelBooking_not_found w bookingRef Hfind). cbn.
  repeat split; reflexivity.
Qed.

Lemma cancelBooking_missing_changes_nothing_witness :
  findById 7 (bookings twoBookingsOneCancelled) = None
  /\ fst (cancelBooking (RefNumber 7) twoBookingsOneCancelled) = inr tt
  /\ bookings (snd (cancelBooking (RefNumber 7) twoBookingsOneCancelled))
     = bookings twoBookingsOneCancelled
  /\ console (snd (cancelBooking (RefNumber 7) twoBookingsOneCancelled))
     = (console twoBookingsOneCancelled ++ ["Booking 7 not found"])%list.
Proof.
  split; [reflexivity |].
  destruct (cancelBooking_missing_changes_nothing twoBookingsOneCancelled
              (RefNumber 7) eq_refl) as (Hr & Hb & _ & Hc).
  repeat split; assumption.
Defined.

(** ** Queries *)

Lemma queryByStatus_filter s bs :
  queryByStatus s bs
  = filter (fun booking => BookingStatus_eqb (status booking) s) bs.
Proof.
  induction bs as [| b bs IH]; cbn; [reflexivity |].
  rewrite IH.
  destruct (BookingStatus_eq_dec (status b) s) as [<- | Hne].
  - destruct (status b); reflexivity.
  - destruct (status b), s; cbn; congruence.
Qed.

(** C8. [getBookingsByStatus] is the consumer applied, in the world of the
    call, to the bookings of the registry that have the status asked for, in
    insertion order: it runs the consumer once, on the list that a direct
    query returns, and whatever the consumer does (print, throw) is the
    whole effect of the call.  A consumer that prints one line about its
    argument leaves exactly that one line. *)
Theorem getBookingsByStatus_delivers_query s (callback : list Booking -> M unit) w :
  getBookingsByStatus s callback w = callback (queryByStatus s (bookings w)) w
  /\ forall observe : list Booking -> string,
       getBookingsByStatus s (fun result => console_log (observe result)) w
       = (inr tt,
          {| bookings := bookings w;
             nextId := nextId w;
             console := console w ++ [observe (queryByStatus s (bookings w))] |}).
Proof.
  split; [| intros observe];
    unfold getBookingsByStatus, bind, getBookings; cbn;
    rewrite queryByStatus_filter; reflexivity.
Qed.

(** ** Summaries *)

Lemma statusCounts_fold bs c :
  let c' := fold_left (fun c booking => incrStatus c (status booking)) bs c in
  booked c' + cancelled c' + pending c'
  = booked c + cancelled c + pending c + Z.of_nat (List.length bs).
Proof.
  cbn zeta. revert c. induction bs as [| b bs IH]; intros c.
  - cbn. lia.
  - cbn [fold_left List.length]. rewrite IH.
    destruct (status b); cbn [incrStatus booked cancelled pending]; lia.
Qed.

Lemma printSummary_prints w :
  printSummary w
  = (inr tt,
     {| bookings := bookings w;
        nextId := nextId w;
        console :=
          ((console w ++ [newline ++ "=== Booking Summary ==="])
             ++ ["Total bookings: "
                 ++ Number_toString (Z.of_nat (List.length (bookings w)))])
            ++ ["Booked: " ++ Number_toString (booked (statusCounts (bookings w)))
                ++ ", Cancelled: "
                ++ Number_toString (cancelled (statusCounts (bookings w)))
                ++ ", Pending: "
                ++ Number_toString (pending (statusCounts (bookings w)))] |}).
Proof. reflexivity. Qed.

(** C7. After every sequence of operations from the empty registry, the
    three counts that [printSummary] computes add up to the number of
    bookings: the total that it prints is the sum of the three counts that it
    prints. *)
Theorem summary_counts_add_up ops :
  let w := exec ops initial in
  let counts := statusCounts (bookings w) in
  booked counts + cancelled counts + pending counts
  = Z.of_nat (List.length (bookings w))
  /\ console (snd (printSummary w))
     = (console w
        ++ [ (newline ++ "=== Booking Summary ===")%string;
             ("Total bookings: "
              ++ Number_toString (booked counts + cancelled counts + pending counts))%string;
             ("Booked: " ++ Number_toString (booked counts)
              ++ ", Cancelled: " ++ Number_toString (cancelled counts)
              ++ ", Pending: " ++ Number_toString (pending counts))%string ])%list.
Proof.
  cbn zeta.
  assert (Hsum : booked (statusCounts (bookings (exec ops initial)))
                 + cancelled (statusCounts (bookings (exec ops initial)))
                 + pending (statusCounts (bookings (exec ops initial)))
                 = Z.of_nat (List.length (bookings (exec ops initial)))).
  { unfold statusCounts.
    pose proof (statusCounts_fold (bookings (exec ops initial))
                  {| booked := 0; cancelled := 0; pending := 0 |}) as Hfold.
    cbn zeta in Hfold. rewrite Hfold. cbn. lia. }
  split; [exact Hsum |].
  rewrite printSummary_prints, Hsum. cbn [snd console].
  rewrite <- !app_assoc. reflexivity.
Qed.

(** ** Ids *)

Lemma validCreates_not_counted o ops :
  (forall name route seatType,
      o = Create name route seatType -> fst route = snd route) ->
  validCreates (o :: ops) = validCreates ops.
Proof.
  intros Ho. destruct o as [nm rt seat | | | |]; cbn; try reflexivity.
  pose proof (Ho nm rt seat eq_refl) as Heq.
  apply String.eqb_eq in Heq. rewrite Heq. reflexivity.
Qed.

Lemma run_createdIds ops :
  forall w,
    createdIds (outcomes ops w) = countFrom (nextId w) (validCreates ops)
    /\ nextId (exec ops w) = nextId w + Z.of_nat (validCreates ops).
Proof.
  induction ops as [| o ops IH]; intros w.
  - cbn. split; [reflexivity | lia].
  - rewrite outcomes_cons, exec_cons.
    destruct (IH (snd (step o w))) as [IHids IHnext].
    rewrite IHnext. clear IHnext.
    destruct (step_effect o w) as [r w' _ Hn Hr Ho | b w' _ Hn Hid _ _ Ho | ref w' Ho _ Hn];
      cbn [fst snd] in *.
    + rewrite (validCreates_not_counted o ops Ho), Hn in *.
      split; [| reflexivity].
      destruct r as [b | e |]; [destruct (Hr b eq_refl) | exact IHids | exact IHids].
    + destruct Ho as (nm & rt & seat & -> & Hne).
      apply String.eqb_neq in Hne.
      cbn [validCreates createdIds countFrom]. rewrite Hne, IHids, Hid, Hn.
      split; [reflexivity | lia].
    + subst o. cbn [validCreates createdIds]. rewrite Hn in *.
      split; [exact IHids | reflexivity].
Qed.

(** C3. Over every sequence of operations from the empty registry, the ids
    of the bookings that the successful calls of [bookTicket] return are, in
    call order, 1, 2, ..., k, where k is the number of calls with a valid
    route: each is greater than all the ids returned before it, all are
    positive, none is skipped or used twice, and a call that throws uses
    none.  The counter ends at k + 1. *)
Theorem created_ids_are_sequential ops :
  let ids := createdIds (outcomes ops initial) in
  ids = countFrom 1 (validCreates ops)
  /\ StronglySorted Z.lt ids
  /\ Forall (fun i => 0 < i) ids
  /\ NoDup ids
  /\ nextId (exec ops initial) = 1 + Z.of_nat (validCreates ops).
Proof.
  cbn zeta. destruct (run_createdIds ops initial) as [Hids Hnext].
  cbn [nextId initial] in Hids, Hnext. rewrite Hids.
  repeat split.
  - apply countFrom_sorted.
  - apply Forall_forall. intros i Hin. apply countFrom_In in Hin. lia.
  - apply countFrom_NoDup.
  - exact Hnext.
Qed.

(** ** Positions and ids in the registry *)

Lemma wellNumbered_step o w :
  wellNumbered w -> wellNumbered (snd (step o w)).
Proof.
  intros [Hids Hnext]. unfold wellNumbered.
  destruct (step_effect o w) as [r w' Hb Hn _ _ | b w' Hb Hn Hid _ _ _ | ref w' _ Hb Hn];
    cbn [snd]; rewrite Hb, Hn.
  - split; assumption.
  - rewrite map_app, length_app, Hids. cbn [map List.length].
    rewrite Nat.add_1_r, countFrom_snoc, Hid, Hnext.
    split; [do 2 f_equal; lia | lia].
  - rewrite assignStatusOfFound_ids, assignStatusOfFound_length.
    split; assumption.
Qed.

Lemma wellNumbered_exec ops : wellNumbered (exec ops initial).
Proof.
  apply exec_invariant; [apply wellNumbered_step |].
  split; reflexivity.
Qed.

Lemma at_most_one_match i bs :
  NoDup (map id bs) ->
  (List.length (filter (fun b => id b =? i)%Z bs) <= 1)%nat.
Proof.
  induction bs as [| b bs IH]; cbn [map filter]; intros Hnd; [cbn; lia |].
  inversion Hnd as [| ? ? Hnotin Hnd']; subst.
  destruct (Z.eqb_spec (id b) i) as [Heq | _]; [| apply IH, Hnd'].
  assert (Hnone : filter (fun b0 => id b0 =? i)%Z bs = []).
  { destruct (filter (fun b0 => id b0 =? i)%Z bs) as [| b1 rest] eqn:Hf; [reflexivity |].
    assert (Hin : In b1 (filter (fun b0 => id b0 =? i)%Z bs))
      by (rewrite Hf; left; reflexivity).
    apply filter_In in Hin. destruct Hin as [Hin Hid].
    apply Z.eqb_eq in Hid. destruct Hnotin.
    rewrite Heq, <- Hid. apply in_map, Hin. }
  rewrite Hnone. cbn. lia.
Qed.

(** C10. After every sequence of operations from the empty registry, the
    booking at position i (from 0) has id i + 1, the id counter is the
    number of bookings plus one, the ids are pairwise distinct, and at most
    one booking of the registry has any given id. *)
Theorem registry_ids_are_positions ops :
  let w := exec ops initial in
  (forall i,
      option_map id (nth_error (bookings w) i)
      = if (i <? List.length (bookings w))%nat then Some (Z.of_nat i + 1) else None)
  /\ nextId w = Z.of_nat (List.length (bookings w)) + 1
  /\ NoDup (map id (bookings w))
  /\ (forall i,
        (List.length (filter (fun b => id b =? i)%Z (bookings w)) <= 1)%nat).
Proof.
  cbn zeta. destruct (wellNumbered_exec ops) as [Hids Hnext].
  assert (Hnd : NoDup (map id (bookings (exec ops initial))))
    by (rewrite Hids; apply countFrom_NoDup).
  repeat split.
  - intros i. rewrite <- nth_error_map, Hids, countFrom_nth_error.
    destruct (i <? _)%nat; [f_equal; lia | reflexivity].
  - exact Hnext.
  - exact Hnd.
  - intros i. apply at_most_one_match, Hnd.
Qed.

(** ** Statuses and travel types *)

Lemma setStatus_same b : setStatus b (status b) = b.
Proof. destruct b; reflexivity. Qed.

Lemma statusTransition_refl o bs : Forall2 (statusTransition o) bs bs.
Proof. induction bs; constructor; [left; reflexivity | assumption]. Qed.

Lemma statusTransition_cancel bookingRef bs :
  Forall inService bs ->
  Forall2 (statusTransition (Cancel bookingRef)) bs
    (assignStatusOfFound (refId bookingRef) Cancelled bs).
Proof.
  induction 1 as [| b bs [Hstatus _] _ IH]; cbn [assignStatusOfFound]; [constructor |].
  destruct (Z.eqb_spec (id b) (refId bookingRef)) as [Hid | _].
  - constructor; [| apply statusTransition_refl].
    destruct Hstatus as [Hbooked | Hcancelled].
    + right. split; [exact Hbooked |]. split; [reflexivity |].
      exists bookingRef. split; [reflexivity | symmetry; exact Hid].
    + left. rewrite <- Hcancelled. apply setStatus_same.
  - constructor; [left; reflexivity | exact IH].
Qed.

Lemma inService_step o w :
  Forall inService (bookings w) -> Forall inService (bookings (snd (step o w))).
Proof.
  intros Hw.
  destruct (step_effect o w) as [r w' Hb _ _ _ | b w' Hb _ _ Hs Ht _ | ref w' _ Hb _];
    cbn [snd]; rewrite Hb.
  - exact Hw.
  - apply Forall_app. split; [exact Hw |].
    constructor; [| constructor]. split; [left; exact Hs | exact Ht].
  - apply assignStatusOfFound_Forall; [| exact Hw].
    intros b [_ Ht]. split; [right; reflexivity | exact Ht].
Qed.

Lemma inService_exec ops : Forall inService (bookings (exec ops initial)).
Proof.
  apply (exec_invariant (fun w => Forall inService (bookings w))).
  - apply inService_step.
  - constructor.
Qed.

(** C9. After every sequence of operations from the empty registry
    (creations, cancellations, listings, summaries, queries), no booking has
    status pending and every booking is a flight; and one more operation
    keeps each booking as it is or, when it is the cancellation of a booked
    one, sets its status to cancelled, and adds at most new bookings that
    are booked flights. *)
Theorem no_pending_only_flights ops :
  let w := exec ops initial in
  Forall (fun b => status b <> Pending /\ travelType b = Flight) (bookings w)
  /\ forall o, exists kept added,
       bookings (snd (step o w)) = (kept ++ added)%list
       /\ Forall2 (statusTransition o) (bookings w) kept
       /\ Forall (fun b => status b = Booked /\ travelType b = Flight) added.
Proof.
  cbn zeta. pose proof (inService_exec ops) as Hw. split.
  - eapply Forall_impl; [| exact Hw].
    intros b [[Hs | Hs] Ht]; rewrite Hs; split; auto; discriminate.
  - intros o.
    destruct (step_effect o (exec ops initial))
      as [r w' Hb _ _ _ | b w' Hb _ _ Hs Ht _ | ref w' Ho Hb _]; cbn [snd].
    + exists (bookings (exec ops initial)), []. rewrite app_nil_r.
      split; [exact Hb |]. split; [apply statusTransition_refl | constructor].
    + exists (bookings (exec ops initial)), [b].
      split; [exact Hb |]. split; [apply statusTransition_refl |].
      constructor; [split; assumption | constructor].
    + exists (assignStatusOfFound (refId ref) Cancelled (bookings (exec ops initial))), [].
      rewrite app_nil_r. split; [exact Hb |]. subst o.
      split; [apply statusTransition_cancel, Hw | constructor].
Qed.

(** * Further properties of the script *)

(** ** The driver *)

Example main_completes : fst (main initial) = inr tt.
Proof. reflexivity. Qed.

Example main_registry :
  map (fun b => (id b, status b, mealPreference b)) (bookings (snd (main initial)))
  = [ (1, Cancelled, Some "Vegetarian");
      (2, Booked, Some "Business");
      (3, Booked, Some "Vegetarian") ]
  /\ nextId (snd (main initial)) = 4.
Proof. split; reflexivity. Qed.

Example main_prints_after_cancelling :
  skipn 14 (console (snd (main initial)))
  = [ "Booking 1 cancelled";
      newline ++ "Booked bookings (via callback):";
      "ID: 2, Name: Jane Smith, Route: Paris " ++ arrow
        ++ " Berlin, Type: Flight, Status: booked, Meal: Business";
      "ID: 3, Name: Bob Johnson, Route: Tokyo " ++ arrow
        ++ " Sydney, Type: Flight, Status: booked, Meal: Vegetarian";
      newline ++ "=== Booking Summary ===";
      "Total bookings: 3";
      "Booked: 2, Cancelled: 1, Pending: 0" ].
Proof. reflexivity. Qed.

(** ** Sequences of operations, composed *)

Lemma run_app ops more w :
  run (ops ++ more) w
  = ((outcomes ops w ++ outcomes more (exec ops w))%list, exec more (exec ops w)).
Proof.
  revert w. induction ops as [| o ops IH]; intros w.
  - cbn [app]. unfold outcomes, exec. cbn [run fst snd app].
    destruct (run more w); reflexivity.
  - cbn [app]. rewrite run_cons, outcomes_cons, exec_cons.
    unfold outcomes at 1, exec at 1. rewrite IH. reflexivity.
Qed.

Lemma exec_app ops more w : exec (ops ++ more) w = exec more (exec ops w).
Proof. unfold exec at 1. rewrite run_app. reflexivity. Qed.

Lemma exec_one o w : exec [o] w = snd (step o w).
Proof. rewrite exec_cons. reflexivity. Qed.

(** ** Listings *)

Lemma printBooking_line b : printBooking b = console_log (bookingLine b).
Proof. reflexivity. Qed.

Lemma forEach_prints {A : Type} (line : A -> string) (f : A -> M unit) xs :
  forall w,
    (forall x w', bookings w' = bookings w -> f x w' = console_log (line x) w') ->
    forEach xs f w
    = (inr tt,
       {| bookings := bookings w;
          nextId := nextId w;
          console := console w ++ map line xs |}).
Proof.
  induction xs as [| x xs IH]; intros w Hf.
  - cbn. rewrite app_nil_r. destruct w; reflexivity.
  - cbn [forEach map]. unfold bind. rewrite (Hf x w eq_refl). cbn [console_log].
    rewrite IH by (intros y w' Hw'; apply Hf; exact Hw').
    cbn [bookings nextId console]. rewrite <- app_assoc. reflexivity.
Qed.

(** X1. Called with no id, [displayBookings] prints its heading and then one
    line for every booking of the registry, in insertion order; on the empty
    registry it prints the heading alone.  It returns normally and leaves the
    registry and the id counter as they are. *)
Theorem displayBookings_all w :
  displayBookings [] w
  = (inr tt,
     {| bookings := bookings w;
        nextId := nextId w;
        console := console w
                   ++ "Displaying all bookings:" :: map bookingLine (bookings w) |}).
Proof.
  unfold displayBookings, bind, getBookings. cbn [console_log].
  rewrite (forEach_prints bookingLine printBooking)
    by (intros b w' _; rewrite printBooking_line; reflexivity).
  cbn [bookings nextId console]. rewrite <- app_assoc. reflexivity.
Qed.

(** X2. Called with ids, [displayBookings] prints a heading that lists them
    and then exactly one line for each requested id, in the order asked and
    with repetitions: the line of the first booking with that id, or the
    not-found line.  An id that is missing stops nothing, nothing is thrown,
    and the registry and the id counter stay as they are. *)
Theorem displayBookings_by_ids i ids w :
  displayBookings (i :: ids) w
  = (inr tt,
     {| bookings := bookings w;
        nextId := nextId w;
        console := console w
                   ++ ("Displaying bookings with IDs: "
                       ++ concat ", " (map Number_toString (i :: ids)))
                      :: map (requestedLine (bookings w)) (i :: ids) |}).
Proof.
  unfold displayBookings, bind. cbn [console_log].
  rewrite (forEach_prints (requestedLine (bookings w))).
  - cbn [bookings nextId console]. rewrite <- app_assoc. reflexivity.
  - intros j w' Hw'. cbn [bookings] in Hw'.
    unfold bind, getBookings, requestedLine. rewrite Hw'.
    destruct (findById j (bookings w)); [rewrite printBooking_line |]; reflexivity.
Qed.

(** ** What every booking of the registry satisfies *)

Lemma step_of_create name route seatType w :
  snd (step (Create name route seatType) w) = snd (bookTicket name route seatType w).
Proof. cbn [step]. destruct (bookTicket name route seatType w); reflexivity. Qed.

(** A property that [bookTicket] gives to the booking it makes, and that the
    assignment of a status keeps, holds throughout the registry. *)
Lemma registry_Forall_step (P : Booking -> Prop) :
  (forall b s, P b -> P (setStatus b s)) ->
  (forall i name route seatType,
      fst route <> snd route ->
      P {| id := i; name := name; route := route; travelType := Flight;
           status := Booked;
           mealPreference := if truthy seatType then seatType else Some "Vegetarian" |}) ->
  forall o w, Forall P (bookings w) -> Forall P (bookings (snd (step o w))).
Proof.
  intros Hset Hnew o w Hw.
  destruct o as [nm rt seat | ref | ids | | s render].
  - rewrite step_of_create.
    destruct (String.eqb_spec (fst rt) (snd rt)) as [Heq | Hne].
    + rewrite (bookTicket_same_ends w nm rt seat Heq). exact Hw.
    + pose proof (bookTicket_different_ends w nm rt seat Hne) as Hbook.
      cbn zeta in Hbook. rewrite Hbook. cbn [snd bookings].
      apply Forall_app. split; [exact Hw |].
      constructor; [apply Hnew, Hne | constructor].
  - destruct (step_effect (Cancel ref) w)
      as [r w' Hb _ _ _ | b w' _ _ _ _ _ (? & ? & ? & Ho & _) | ref' w' _ Hb _];
      cbn [snd]; [rewrite Hb; exact Hw | discriminate Ho |].
    rewrite Hb. apply assignStatusOfFound_Forall; [| exact Hw].
    intros b. apply Hset.
  - destruct (printsOnly_displayBookings ids w) as (_ & Hb & _).
    cbn [step]. destruct (displayBookings ids w); cbn [snd] in *. rewrite Hb. exact Hw.
  - destruct (printsOnly_printSummary w) as (_ & Hb & _).
    cbn [step]. destruct (printSummary w); cbn [snd] in *. rewrite Hb. exact Hw.
  - assert (Hp : printsOnly
                   (getBookingsByStatus s
                      (fun result => forEach (render result) console_log)))
      by (apply printsOnly_getBookingsByStatus; intros result;
          apply printsOnly_forEach, printsOnly_console_log).
    destruct (Hp w) as (_ & Hb & _).
    cbn [step]. destruct (getBookingsByStatus s _ w); cbn [snd] in *.
    rewrite Hb. exact Hw.
Qed.

Lemma registry_Forall_exec (P : Booking -> Prop) :
  (forall b s, P b -> P (setStatus b s)) ->
  (forall i name route seatType,
      fst route <> snd route ->
      P {| id := i; name := name; route := route; travelType := Flight;
           status := Booked;
           mealPreference := if truthy seatType then seatType else Some "Vegetarian" |}) ->
  forall ops w, Forall P (bookings w) -> Forall P (bookings (exec ops w)).
Proof.
  intros Hset Hnew ops w Hw.
  apply (exec_invariant (fun w => Forall P (bookings w))); [| exact Hw].
  intros o w0. apply registry_Forall_step; assumption.
Qed.

(** X3. After every sequence of operations from the empty registry, every
    booking of the registry has a route whose two ends differ: the guard of
    [bookTicket] lets no other route in, and nothing changes a route
    afterwards. *)
Theorem registry_routes_have_different_ends ops :
  Forall (fun b => fst (route b) <> snd (route b)) (bookings (exec ops initial)).
Proof.
  apply registry_Forall_exec.
  - intros b s Hb. exact Hb.
  - intros i nm rt seat Hne. exact Hne.
  - constructor.
Qed.

(** X4. After every sequence of operations from the empty registry, every
    booking of the registry has a meal preference, and it is not the empty
    string; so [printBooking] prints the preference itself for it, never
    "Not specified". *)
Theorem registry_meal_preferences_are_set ops :
  Forall (fun b => exists m,
              mealPreference b = Some m
              /\ m <> ""
              /\ truthy (mealPreference b) = true)
    (bookings (exec ops initial)).
Proof.
  assert (Hshape : forall b, truthy (mealPreference b) = true ->
                             exists m, mealPreference b = Some m /\ m <> ""
                                       /\ truthy (mealPreference b) = true).
  { intros b Hb. destruct (mealPreference b) as [m |] eqn:Hm; [| discriminate].
    exists m. repeat split; [| exact Hb].
    intros ->. discriminate. }
  eapply Forall_impl; [exact Hshape |].
  apply (registry_Forall_exec (fun b => truthy (mealPreference b) = true)).
  - intros b s Hb. exact Hb.
  - intros i nm rt seat _. cbn.
    destruct (truthy seat) eqn:Hseat; [exact Hseat | reflexivity].
  - constructor.
Qed.

(** ** Lookup by id *)

Lemma findById_app i (l1 l2 : list Booking) :
  findById i (l1 ++ l2)
  = match findById i l1 with
    | Some b => Some b
    | None => findById i l2
    end.
Proof.
  unfold findById. induction l1 as [| b l1 IH]; cbn; [reflexivity |].
  destruct (id b =? i)%Z; [reflexivity | exact IH].
Qed.

Lemma findById_id i bs b : findById i bs = Some b -> id b = i.
Proof.
  unfold findById. intros Hfind. apply find_some in Hfind.
  destruct Hfind as [_ Hid]. apply Z.eqb_eq, Hid.
Qed.

Lemma findById_countFrom bs :
  forall k i,
    map id bs = countFrom k (List.length bs) ->
    findById i bs
    = if ((k <=? i) && (i <? k + Z.of_nat (List.length bs)))%Z
      then nth_error bs (Z.to_nat (i - k))
      else None.
Proof.
  induction bs as [| b bs IH]; intros k i Hids.
  - cbn. destruct (k <=? i)%Z eqn:Hk; cbn; [| reflexivity].
    destruct (i <? k + 0)%Z eqn:Hlt; [| reflexivity].
    apply Z.leb_le in Hk. apply Z.ltb_lt in Hlt. lia.
  - cbn [map List.length countFrom] in Hids. injection Hids as Hid Hrest.
    unfold findById. cbn [find]. fold (findById i bs).
    rewrite (IH (k + 1) i Hrest). rewrite Hid. cbn [List.length].
    destruct (Z.eqb_spec k i) as [-> | Hne].
    + replace (i - i) with 0 by lia. cbn [Z.to_nat nth_error].
      rewrite Z.leb_refl. cbn [andb].
      destruct (Z.ltb_spec i (i + Z.of_nat (S (List.length bs)))) as [_ | Hge];
        [reflexivity | lia].
    + destruct (Z.leb_spec (k + 1) i) as [Hle | Hgt];
        destruct (Z.leb_spec k i) as [Hle' | Hgt']; try lia; cbn [andb]; [| reflexivity].
      destruct (Z.ltb_spec i (k + 1 + Z.of_nat (List.length bs))) as [Hlt | Hge];
        destruct (Z.ltb_spec i (k + Z.of_nat (S (List.length bs)))) as [Hlt' | Hge'];
        try lia; [| reflexivity].
      replace (Z.to_nat (i - k)) with (S (Z.to_nat (i - (k + 1)))) by lia.
      reflexivity.
Qed.

Lemma findById_wellNumbered w i :
  wellNumbered w ->
  findById i (bookings w)
  = if ((1 <=? i) && (i <? nextId w))%Z
    then nth_error (bookings w) (Z.to_nat (i - 1))
    else None.
Proof.
  intros [Hids Hnext]. rewrite (findById_countFrom _ 1 i Hids), Hnext.
  replace (Z.of_nat (List.length (bookings w)) + 1)
    with (1 + Z.of_nat (List.length (bookings w))) by lia.
  reflexivity.
Qed.

(** X5. After every sequence of operations from the empty registry, the
    lookup [bookings.find(b => b.id === i)] that [displayBookings] and
    [cancelBooking] make finds a booking exactly when 1 <= i < nextId, and
    then it is the booking at position i - 1, whose id is i. *)
Theorem findById_in_registry ops i :
  let w := exec ops initial in
  findById i (bookings w)
  = (if ((1 <=? i) && (i <? nextId w))%Z
     then nth_error (bookings w) (Z.to_nat (i - 1))
     else None)
  /\ ((exists b, findById i (bookings w) = Some b /\ id b = i) <-> 1 <= i < nextId w).
Proof.
  cbn zeta. pose proof (wellNumbered_exec ops) as Hwf.
  pose proof (findById_wellNumbered _ i Hwf) as Hfind.
  split; [exact Hfind |].
  destruct Hwf as [_ Hnext].
  destruct (Z.leb_spec 1 i) as [Hle | Hgt]; cbn [andb] in Hfind.
  - destruct (Z.ltb_spec i (nextId (exec ops initial))) as [Hlt | Hge].
    + split; [intros _; lia | intros _].
      destruct (nth_error (bookings (exec ops initial)) (Z.to_nat (i - 1)))
        as [b |] eqn:Hnth.
      * exists b. split; [exact Hfind | eapply findById_id; exact Hfind].
      * apply nth_error_None in Hnth. lia.
    + split; [intros (b & Hb & _); congruence | lia].
  - split; [intros (b & Hb & _); congruence | lia].
Qed.

(** ** A booking just made *)

Lemma assignStatusOfFound_app i s (l1 l2 : list Booking) :
  findById i l1 = None ->
  assignStatusOfFound i s (l1 ++ l2) = (l1 ++ assignStatusOfFound i s l2)%list.
Proof.
  unfold findById. induction l1 as [| b l1 IH]; cbn; [reflexivity |].
  destruct (id b =? i)%Z; [discriminate |].
  intros Hnone. rewrite IH by exact Hnone. reflexivity.
Qed.

(** What a successful [bookTicket] does to a registry numbered by position. *)
Lemma bookTicket_in_registry w name route seatType b :
  wellNumbered w ->
  fst (bookTicket name route seatType w) = inr b ->
  bookings (snd (bookTicket name route seatType w)) = (bookings w ++ [b])%list
  /\ findById (id b) (bookings w) = None
  /\ id b = nextId w.
Proof.
  intros Hwf.
  destruct (String.eqb_spec (fst route) (snd route)) as [Heq | Hne].
  - rewrite (bookTicket_same_ends w name route seatType Heq). discriminate.
  - pose proof (bookTicket_different_ends w name route seatType Hne) as Hbook.
    cbn zeta in Hbook. rewrite Hbook. cbn [fst snd bookings].
    intros [= <-]. cbn [id]. repeat split.
    rewrite (findById_wellNumbered w (nextId w) Hwf), Z.ltb_irrefl, andb_false_r.
    reflexivity.
Qed.

(** X6. After every sequence of operations from the empty registry, a
    booking that [bookTicket] returns is the last of the registry and is what
    a lookup by its id finds; it carries the name and the route given. *)
Theorem bookTicket_then_find ops name0 route0 seatType b :
  let w := exec ops initial in
  fst (bookTicket name0 route0 seatType w) = inr b ->
  let w' := snd (bookTicket name0 route0 seatType w) in
  findById (id b) (bookings w') = Some b
  /\ bookings w' = (bookings w ++ [b])%list
  /\ name b = name0
  /\ route b = route0.
Proof.
  cbn zeta. intros Hret.
  destruct (bookTicket_in_registry _ _ _ _ _ (wellNumbered_exec ops) Hret)
    as (Hb & Hnone & _).
  rewrite Hb, findById_app, Hnone.
  split; [unfold findById; cbn; rewrite Z.eqb_refl; reflexivity |].
  split; [reflexivity |].
  destruct (String.eqb_spec (fst route0) (snd route0)) as [Heq | Hne].
  - rewrite (bookTicket_same_ends _ name0 route0 seatType Heq) in Hret. discriminate.
  - pose proof (bookTicket_different_ends (exec ops initial) name0 route0 seatType Hne)
      as Hbook.
    cbn zeta in Hbook. rewrite Hbook in Hret. cbn [fst] in Hret.
    injection Hret as <-. split; reflexivity.
Qed.

Lemma bookTicket_then_find_witness :
  let w := exec [ Create "John Doe" ("New York", "London") None ] initial in
  exists b,
    fst (bookTicket "Jane Smith" ("Paris", "Berlin") (Some "Business") w) = inr b
    /\ id b = 2
    /\ findById 2
         (bookings (snd (bookTicket "Jane Smith" ("Paris", "Berlin") (Some "Business") w)))
       = Some b.
Proof.
  cbn zeta. eexists. split; [reflexivity |]. split; [reflexivity |].
  exact (proj1 (bookTicket_then_find
                  [ Create "John Doe" ("New York", "London") None ]
                  "Jane Smith" ("Paris", "Berlin") (Some "Business") _ eq_refl)).
Defined.

(** X7. After every sequence of operations from the empty registry, passing
    the booking that [bookTicket] has just returned to [cancelBooking]
    cancels that booking and no other: the registry is the one before the
    creation followed by the new booking with status cancelled. *)
Theorem bookTicket_then_cancel ops name0 route0 seatType b :
  let w := exec ops initial in
  fst (bookTicket name0 route0 seatType w) = inr b ->
  let w' := snd (bookTicket name0 route0 seatType w) in
  fst (cancelBooking (RefBooking b) w') = inr tt
  /\ bookings (snd (cancelBooking (RefBooking b) w'))
     = (bookings w ++ [setStatus b Cancelled])%list.
Proof.
  cbn zeta. intros Hret.
  destruct (bookTicket_in_registry _ _ _ _ _ (wellNumbered_exec ops) Hret)
    as (Hb & Hnone & _).
  assert (Hfound : findById (refId (RefBooking b))
                     (bookings (snd (bookTicket name0 route0 seatType (exec ops initial))))
                   = Some b).
  { rewrite Hb, findById_app. cbn [refId]. rewrite Hnone.
    unfold findById. cbn. rewrite Z.eqb_refl. reflexivity. }
  rewrite (cancelBooking_found _ (RefBooking b) b Hfound). cbn [fst snd bookings refId].
  split; [reflexivity |].
  rewrite Hb, (assignStatusOfFound_app _ _ _ _ Hnone). cbn.
  rewrite Z.eqb_refl. reflexivity.
Qed.

Lemma bookTicket_then_cancel_witness :
  let w := exec [ Create "John Doe" ("New York", "London") None ] initial in
  let b := {| id := 2; name := "Jane Smith"; route := ("Paris", "Berlin");
              travelType := Flight; status := Booked;
              mealPreference := Some "Vegetarian" |} in
  fst (bookTicket "Jane Smith" ("Paris", "Berlin") None w) = inr b
  /\ bookings
       (snd (cancelBooking (RefBooking b)
               (snd (bookTicket "Jane Smith" ("Paris", "Berlin") None w))))
     = (bookings w ++ [setStatus b Cancelled])%list.
Proof.
  cbn zeta. split; [reflexivity |].
  exact (proj2 (bookTicket_then_cancel
                  [ Create "John Doe" ("New York", "London") None ]
                  "Jane Smith" ("Paris", "Berlin") None _ eq_refl)).
Defined.

(** ** Bookings are kept *)

Lemma laterVersion_refl b : laterVersion b b.
Proof. split; [symmetry; apply setStatus_same | auto]. Qed.

Lemma laterVersion_trans b1 b2 b3 :
  laterVersion b1 b2 -> laterVersion b2 b3 -> laterVersion b1 b3.
Proof.
  intros [H12 C12] [H23 C23]. split; [| auto].
  rewrite H23, H12. reflexivity.
Qed.

Lemma laterVersions_refl bs : Forall2 laterVersion bs bs.
Proof. induction bs; constructor; [apply laterVersion_refl | assumption]. Qed.

Lemma laterVersions_trans l1 :
  forall l2 l3,
    Forall2 laterVersion l1 l2 -> Forall2 laterVersion l2 l3 ->
    Forall2 laterVersion l1 l3.
Proof.
  induction l1 as [| b1 l1 IH]; intros l2 l3 H12 H23.
  - inversion H12; subst. inversion H23; subst. constructor.
  - inversion H12 as [| ? b2 ? l2' Hb12 Hl12]; subst.
    inversion H23 as [| ? b3 ? l3' Hb23 Hl23]; subst.
    constructor; [eapply laterVersion_trans; eassumption | eapply IH; eassumption].
Qed.

Lemma laterVersions_assigned i bs :
  Forall2 laterVersion bs (assignStatusOfFound i Cancelled bs).
Proof.
  induction bs as [| b bs IH]; cbn [assignStatusOfFound]; [constructor |].
  destruct (id b =? i)%Z; constructor.
  - split; reflexivity.
  - apply laterVersions_refl.
  - apply laterVersion_refl.
  - exact IH.
Qed.

Lemma laterVersions_nth_error l1 l2 :
  Forall2 laterVersion l1 l2 ->
  forall i b, nth_error l1 i = Some b ->
              exists b', nth_error l2 i = Some b' /\ laterVersion b b'.
Proof.
  induction 1 as [| b1 b2 l1 l2 Hb Hl IH]; intros i b Hnth.
  - destruct i; discriminate.
  - destruct i as [| i]; cbn [nth_error] in *.
    + injection Hnth as <-. exists b2. split; [reflexivity | exact Hb].
    + apply IH, Hnth.
Qed.

(** The registry after [ops] is the registry before, each booking in a later
    version, followed by the bookings added; the counter has advanced by
    their number. *)
Lemma exec_keeps_bookings ops :
  forall w, exists kept added,
    bookings (exec ops w) = (kept ++ added)%list
    /\ Forall2 laterVersion (bookings w) kept
    /\ nextId (exec ops w) = nextId w + Z.of_nat (List.length added).
Proof.
  induction ops as [| o ops IH]; intros w.
  - exists (bookings w), []. cbn. rewrite app_nil_r.
    split; [reflexivity |]. split; [apply laterVersions_refl | lia].
  - rewrite exec_cons.
    destruct (IH (snd (step o w))) as (kept2 & added2 & Hb2 & Hl2 & Hn2).
    rewrite Hb2, Hn2. clear Hb2 Hn2.
    destruct (step_effect o w) as [r w' Hb Hn _ _ | b w' Hb Hn _ _ _ _ | ref w' _ Hb Hn];
      cbn [snd] in *; rewrite Hb in Hl2; rewrite Hn.
    + exists kept2, added2. repeat split; assumption.
    + apply Forall2_app_inv_l in Hl2.
      destruct Hl2 as (k2a & k2b & Hka & Hkb & ->).
      exists k2a, (k2b ++ added2)%list. rewrite <- app_assoc.
      split; [reflexivity |]. split; [exact Hka |].
      apply Forall2_length in Hkb. cbn [List.length] in Hkb.
      rewrite length_app, <- Hkb. lia.
    + exists kept2, added2. split; [reflexivity |]. split; [| reflexivity].
      eapply laterVersions_trans; [apply laterVersions_assigned | exact Hl2].
Qed.



(** X9. A cancelled booking stays cancelled: from any registry, if the
    booking at a position is cancelled, then after any sequence of operations
    the booking at that position is the same booking, still cancelled. *)
Theorem cancelled_stays_cancelled ops w i b :
  nth_error (bookings w) i = Some b ->
  status b = Cancelled ->
  nth_error (bookings (exec ops w)) i = Some b.
Proof.
  intros Hnth Hstatus.
  destruct (exec_keeps_bookings ops w) as (kept & added & Hb & Hl & _).
  destruct (laterVersions_nth_error _ _ Hl i b Hnth) as (b' & Hnth' & Hsame & Hc).
  rewrite Hb, nth_error_app1 by (apply nth_error_Some; congruence).
  rewrite Hnth'. f_equal.
  rewrite Hsame, (Hc Hstatus), <- Hstatus. apply setStatus_same.
Qed.

Lemma cancelled_stays_cancelled_witness :
  nth_error (bookings twoBookingsOneCancelled) 0
  = Some {| id := 1; name := "John Doe"; route := ("New York", "London");
            travelType := Flight; status := Cancelled;
            mealPreference := Some "Vegetarian" |}
  /\ nth_error
       (bookings
          (exec [ Create "Bob Johnson" ("Tokyo", "Sydney") None;
                  Cancel (RefNumber 1); Cancel (RefNumber 2); Summarize ]
             twoBookingsOneCancelled)) 0
     = Some {| id := 1; name := "John Doe"; route := ("New York", "London");
               travelType := Flight; status := Cancelled;
               mealPreference := Some "Vegetarian" |}.
Proof.
  split; [reflexivity |].
  exact (cancelled_stays_cancelled
           [ Create "Bob Johnson" ("Tokyo", "Sydney") None;
             Cancel (RefNumber 1); Cancel (RefNumber 2); Summarize ]
           twoBookingsOneCancelled 0 _ eq_refl eq_refl).
Defined.

(** ** Summaries and queries agree *)

Lemma BookingStatus_eqb_eq a b : BookingStatus_eqb a b = true <-> a = b.
Proof. destruct a, b; cbn; split; congruence. Qed.

Lemma withStatus_cons s b bs :
  withStatus s (b :: bs)
  = if BookingStatus_eqb (status b) s then b :: withStatus s bs else withStatus s bs.
Proof. reflexivity. Qed.

(** The loop of [printSummary], from any starting counts. *)
Lemma statusCounts_loop bs :
  forall c s,
    countOf (fold_left (fun c booking => incrStatus c (status booking)) bs c) s
    = countOf c s + Z.of_nat (List.length (withStatus s bs)).
Proof.
  induction bs as [| b bs IH]; intros c s.
  - cbn. lia.
  - cbn [fold_left]. rewrite IH, withStatus_cons.
    destruct (status b), s; cbn [BookingStatus_eqb incrStatus countOf List.length
                                   booked cancelled pending]; lia.
Qed.

Lemma countOf_statusCounts bs s :
  countOf (statusCounts bs) s = Z.of_nat (List.length (withStatus s bs)).
Proof. unfold statusCounts. rewrite statusCounts_loop. destruct s; reflexivity. Qed.

Lemma StatusCounts_ext c c' :
  (forall s, countOf c s = countOf c' s) -> c = c'.
Proof.
  intros H. destruct c, c'.
  pose proof (H Booked). pose proof (H Cancelled). pose proof (H Pending).
  cbn in *. congruence.
Qed.

(** X10. For every registry and every status, the count that [printSummary]
    computes for the status is the length of the array that
    [getBookingsByStatus] passes to its callback for that status. *)
Theorem summary_count_is_query_length s (callback : list Booking -> M unit) w :
  getBookingsByStatus s callback w = callback (withStatus s (bookings w)) w
  /\ countOf (statusCounts (bookings w)) s
     = Z.of_nat (List.length (withStatus s (bookings w))).
Proof. split; [reflexivity | apply countOf_statusCounts]. Qed.

Lemma withStatus_Pending_inService bs :
  Forall inService bs -> withStatus Pending bs = [].
Proof.
  induction 1 as [| b bs [[Hs | Hs] _] _ IH]; [reflexivity | |];
    rewrite withStatus_cons, Hs; exact IH.
Qed.

(** X11. After every sequence of operations from the empty registry, a
    query for the status pending hands its callback the empty array, and the
    pending count of the summary is 0. *)
Theorem pending_is_never_reported ops (callback : list Booking -> M unit) :
  let w := exec ops initial in
  getBookingsByStatus Pending callback w = callback [] w
  /\ pending (statusCounts (bookings w)) = 0.
Proof.
  cbn zeta.
  pose proof (withStatus_Pending_inService _ (inService_exec ops)) as Hnone.
  split.
  - unfold getBookingsByStatus, bind, getBookings. cbn.
    fold (withStatus Pending (bookings (exec ops initial))). rewrite Hnone. reflexivity.
  - change (countOf (statusCounts (bookings (exec ops initial))) Pending = 0).
    rewrite countOf_statusCounts, Hnone. reflexivity.
Qed.

(** ** How creations and cancellations move the counts *)

Lemma statusCounts_snoc bs b :
  statusCounts (bs ++ [b]) = incrStatus (statusCounts bs) (status b).
Proof. unfold statusCounts. rewrite fold_left_app. reflexivity. Qed.

(** X12. For every registry, a call of [bookTicket] with a valid route
    raises the booked count of the summary by one and leaves the two other
    counts; a call with an invalid route leaves the three counts. *)
Theorem bookTicket_counts name route seatType w :
  let before := statusCounts (bookings w) in
  statusCounts (bookings (snd (bookTicket name route seatType w)))
  = if fst route =? snd route
    then before
    else {| booked := booked before + 1;
            cancelled := cancelled before;
            pending := pending before |}.
Proof.
  cbn zeta. destruct (String.eqb_spec (fst route) (snd route)) as [Heq | Hne].
  - rewrite (bookTicket_same_ends w name route seatType Heq). reflexivity.
  - pose proof (bookTicket_different_ends w name route seatType Hne) as Hbook.
    cbn zeta in Hbook. rewrite Hbook. cbn [snd bookings].
    rewrite statusCounts_snoc. reflexivity.
Qed.

Lemma withStatus_assigned i bs b :
  findById i bs = Some b ->
  forall s,
    Z.of_nat (List.length (withStatus s (assignStatusOfFound i Cancelled bs)))
    + (if BookingStatus_eqb (status b) s then 1 else 0)
    = Z.of_nat (List.length (withStatus s bs))
      + (if BookingStatus_eqb Cancelled s then 1 else 0).
Proof.
  unfold findById. induction bs as [| b0 bs IH]; cbn [find assignStatusOfFound];
    [discriminate |].
  destruct (id b0 =? i)%Z.
  - intros [= <-] s. rewrite !withStatus_cons. cbn [setStatus status].
    destruct (BookingStatus_eqb (status b0) s), (BookingStatus_eqb Cancelled s);
      cbn [List.length]; lia.
  - intros Hfind s. rewrite !withStatus_cons.
    pose proof (IH Hfind s) as IHs.
    destruct (BookingStatus_eqb (status b0) s); cbn [List.length]; lia.
Qed.

(** X13. For every registry, cancelling a booking that is found and booked
    lowers the booked count of the summary by one, raises the cancelled count
    by one and leaves the pending count. *)
Theorem cancelBooking_counts w bookingRef b :
  findById (refId bookingRef) (bookings w) = Some b ->
  status b = Booked ->
  let before := statusCounts (bookings w) in
  statusCounts (bookings (snd (cancelBooking bookingRef w)))
  = {| booked := booked before - 1;
       cancelled := cancelled before + 1;
       pending := pending before |}.
Proof.
  intros Hfind Hstatus. cbn zeta.
  rewrite (cancelBooking_found w bookingRef b Hfind). cbn [snd bookings].
  apply StatusCounts_ext. intros s.
  pose proof (withStatus_assigned _ _ _ Hfind s) as Hs. rewrite Hstatus in Hs.
  rewrite countOf_statusCounts.
  pose proof (countOf_statusCounts (bookings w) s) as Hc.
  destruct s; cbn [countOf booked cancelled pending BookingStatus_eqb] in *; lia.
Qed.

Lemma cancelBooking_counts_witness :
  let w := exec [ Create "John Doe" ("New York", "London") None;
                  Create "Jane Smith" ("Paris", "Berlin") (Some "Business") ] initial in
  statusCounts (bookings w) = {| booked := 2; cancelled := 0; pending := 0 |}
  /\ statusCounts (bookings (snd (cancelBooking (RefNumber 2) w)))
     = {| booked := 2 - 1; cancelled := 0 + 1; pending := 0 |}.
Proof.
  cbn zeta. split; [reflexivity |].
  exact (cancelBooking_counts
           (exec [ Create "John Doe" ("New York", "London") None;
                   Create "Jane Smith" ("Paris", "Berlin") (Some "Business") ] initial)
           (RefNumber 2) _ eq_refl eq_refl).
Defined.

(** ** Cancellations, composed *)

Lemma assignStatusOfFound_not_found i s bs :
  findById i bs = None -> assignStatusOfFound i s bs = bs.
Proof.
  unfold findById. induction bs as [| b bs IH]; cbn; [reflexivity |].
  destruct (id b =? i)%Z; [discriminate |].
  intros Hnone. rewrite IH by exact Hnone. reflexivity.
Qed.

(** The registry after [cancelBooking], found or not. *)
Lemma cancelBooking_registry bookingRef w :
  bookings (snd (cancelBooking bookingRef w))
  = assignStatusOfFound (refId bookingRef) Cancelled (bookings w)
  /\ nextId (snd (cancelBooking bookingRef w)) = nextId w.
Proof.
  destruct (findById (refId bookingRef) (bookings w)) as [b |] eqn:Hfind.
  - rewrite (cancelBooking_found w bookingRef b Hfind). split; reflexivity.
  - rewrite (cancelBooking_not_found w bookingRef Hfind). cbn [snd bookings nextId].
    rewrite (assignStatusOfFound_not_found _ _ _ Hfind). split; reflexivity.
Qed.

Lemma assignStatusOfFound_comm i j s bs :
  assignStatusOfFound i s (assignStatusOfFound j s bs)
  = assignStatusOfFound j s (assignStatusOfFound i s bs).
Proof.
  induction bs as [| b bs IH]; cbn [assignStatusOfFound]; [reflexivity |].
  destruct (id b =? i)%Z eqn:Hi, (id b =? j)%Z eqn:Hj;
    cbn [assignStatusOfFound setStatus id]; rewrite ?Hi, ?Hj;
    [reflexivity | reflexivity | reflexivity | rewrite IH; reflexivity].
Qed.

(** X14. For every registry, two cancellations leave the same bookings and
    the same id counter in either order, whether or not the ids are found
    and whether or not they are the same. *)
Theorem cancellations_commute w ref1 ref2 :
  let first := snd (cancelBooking ref2 (snd (cancelBooking ref1 w))) in
  let second := snd (cancelBooking ref1 (snd (cancelBooking ref2 w))) in
  bookings first = bookings second /\ nextId first = nextId second.
Proof.
  cbn zeta.
  destruct (cancelBooking_registry ref1 w) as [Hb1 Hn1].
  destruct (cancelBooking_registry ref2 w) as [Hb2 Hn2].
  destruct (cancelBooking_registry ref2 (snd (cancelBooking ref1 w))) as [Hb21 Hn21].
  destruct (cancelBooking_registry ref1 (snd (cancelBooking ref2 w))) as [Hb12 Hn12].
  split; [| congruence].
  rewrite Hb21, Hb12, Hb1, Hb2. apply assignStatusOfFound_comm.
Qed.

Lemma assignStatusOfFound_same i bs b :
  findById i bs = Some b ->
  assignStatusOfFound i (status b) bs = bs.
Proof.
  unfold findById. induction bs as [| b0 bs IH]; cbn; [discriminate |].
  destruct (id b0 =? i)%Z.
  - intros [= <-]. rewrite setStatus_same. reflexivity.
  - intros Hfind. rewrite IH by exact Hfind. reflexivity.
Qed.

(** X15. For every registry, cancelling a booking that is found and already
    cancelled changes no booking and not the id counter: only the line
    "Booking i cancelled" is printed again. *)
Theorem cancelBooking_already_cancelled w bookingRef b :
  findById (refId bookingRef) (bookings w) = Some b ->
  status b = Cancelled ->
  cancelBooking bookingRef w
  = (inr tt,
     {| bookings := bookings w;
        nextId := nextId w;
        console := console w
                   ++ ["Booking " ++ Number_toString (refId bookingRef) ++ " cancelled"] |}).
Proof.
  intros Hfind Hstatus.
  rewrite (cancelBooking_found w bookingRef b Hfind).
  rewrite <- Hstatus, (assignStatusOfFound_same _ _ _ Hfind). reflexivity.
Qed.

Lemma cancelBooking_already_cancelled_witness :
  bookings (snd (cancelBooking (RefNumber 1) twoBookingsOneCancelled))
  = bookings twoBookingsOneCancelled
  /\ console (snd (cancelBooking (RefNumber 1) twoBookingsOneCancelled))
     = (console twoBookingsOneCancelled ++ ["Booking 1 cancelled"])%list.
Proof.
  rewrite (cancelBooking_already_cancelled twoBookingsOneCancelled (RefNumber 1)
             _ eq_refl eq_refl).
  split; reflexivity.
Defined.

(** ** Listing everything and listing every id *)

Lemma findById_NoDup bs b :
  NoDup (map id bs) -> In b bs -> findById (id b) bs = Some b.
Proof.
  unfold findById. induction bs as [| b0 bs IH]; cbn [map In find]; [intros _ [] |].
  intros Hnd Hin. inversion Hnd as [| ? ? Hnotin Hnd']; subst.
  destruct Hin as [-> | Hin].
  - rewrite Z.eqb_refl. reflexivity.
  - destruct (Z.eqb_spec (id b0) (id b)) as [Heq | _]; [| apply IH; assumption].
    destruct Hnotin. rewrite Heq. apply in_map, Hin.
Qed.

(** X16. After every sequence of operations from the empty registry, asking
    [displayBookings] for the ids 1, 2, ..., n, n the number of bookings,
    gives below the heading the lines that asking for everything gives: every
    id of that range is found, and the bookings come in the same order. *)
Theorem listing_every_id_lists_everything ops :
  let w := exec ops initial in
  map (requestedLine (bookings w)) (countFrom 1 (List.length (bookings w)))
  = map bookingLine (bookings w).
Proof.
  cbn zeta. destruct (wellNumbered_exec ops) as [Hids _].
  assert (Hnd : NoDup (map id (bookings (exec ops initial))))
    by (rewrite Hids; apply countFrom_NoDup).
  rewrite <- Hids, map_map. apply map_ext_in. intros b Hin.
  unfold requestedLine. rewrite (findById_NoDup _ _ Hnd Hin). reflexivity.
Qed.
